(** * Entity matching and title/version parsing of Music Assistant

    A shallow embedding of [music_assistant/helpers/compare.py] and of
    [parse_title_and_version] / [get_version_substitute] from
    [music_assistant/utils.py], with the other pure helpers of that file
    ([filename_from_string], [get_sort_name], [callback] / [is_callback]).

    Python's [str] is a sequence of Unicode code points: a string is a list
    of code points ([N]).  The built-in string methods the two modules call
    are written out in [PyStr]; the Unicode case tables and the
    transliteration table of the [unidecode] package are not part of the
    repository and are taken as parameters ([UnicodeData]), the ASCII range
    being written out as CPython and [unidecode] treat it. *)

From Stdlib Require Import List NArith ZArith QArith Qabs Bool Lia.
From Stdlib Require Import Strings.Ascii.
From Stdlib Require Strings.String.
Import ListNotations.
Import String.StringSyntax.

Local Open Scope N_scope.
Local Open Scope list_scope.

(** ** Exceptions *)

Inductive pyerr : Type :=
| ValueError   (* str.split with an empty separator *)
| IndexError.  (* list index out of range *)

Inductive exc (A : Type) : Type :=
| Ok (a : A)
| Raise (e : pyerr).

Arguments Ok {A} a.
Arguments Raise {A} e.

Definition bind {A B : Type} (m : exc A) (k : A -> exc B) : exc B :=
  match m with
  | Ok a => k a
  | Raise e => Raise e
  end.

Declare Scope exc_scope.
Delimit Scope exc_scope with exc.
Notation "x <- m ;; k" := (bind m (fun x => k))
  (at level 61, m at next level, right associativity) : exc_scope.
Notation "' pat <- m ;; k" := (bind m (fun x => match x with pat => k end))
  (at level 61, pat pattern, m at next level, right associativity) : exc_scope.

(** A Python [for] loop whose body updates the loop state and may raise. *)
Fixpoint for_each {A S : Type} (items : list A) (body : S -> A -> exc S)
         (st : S) : exc S :=
  match items with
  | [] => Ok st
  | x :: items' => bind (body st x) (for_each items' body)
  end.

(** ** Python strings *)

Module PyStr.

Definition pystr : Type := list N.

(** A literal of the source, written as a Rocq string of ASCII characters. *)
Definition py (s : String.string) : pystr :=
  map N_of_ascii (String.list_ascii_of_string s).

Fixpoint eqb (a b : pystr) : bool :=
  match a, b with
  | [], [] => true
  | x :: a', y :: b' => (x =? y) && eqb a' b'
  | _, _ => false
  end.

(** Truth value of an optional string: [None] and [""] are false. *)
Definition truthy (o : option pystr) : bool :=
  match o with
  | Some (_ :: _) => true
  | _ => false
  end.

(** [s[i]] on a list: IndexError when [i] is out of range. *)
Definition index {A : Type} (l : list A) (i : nat) : exc A :=
  match nth_error l i with
  | Some x => Ok x
  | None => Raise IndexError
  end.

(** [s.startswith(prefix)] *)
Fixpoint startswith (s prefix : pystr) {struct prefix} : bool :=
  match prefix, s with
  | [], _ => true
  | p :: prefix', c :: s' => (c =? p) && startswith s' prefix'
  | _ :: _, [] => false
  end.

(** [s.endswith(suffix)] *)
Definition endswith (s suffix : pystr) : bool :=
  startswith (rev s) (rev suffix).

(** [s.find(sub)]: the lowest index where [sub] occurs, [None] for -1. *)
Fixpoint find (s sub : pystr) {struct s} : option nat :=
  if startswith s sub then Some 0%nat
  else match s with
       | [] => None
       | _ :: s' => option_map S (find s' sub)
       end.

(** [sub in s] *)
Definition contains (sub s : pystr) : bool :=
  match find s sub with
  | Some _ => true
  | None => false
  end.

(** The loop of [s.split(sep)] for a non-empty [sep]: cut at the next
    occurrence, continue after it.  [fuel] bounds the number of cuts. *)
Fixpoint split_loop (fuel : nat) (s sep : pystr) : list pystr :=
  match fuel with
  | O => [s]
  | S fuel' =>
      match find s sep with
      | None => [s]
      | Some i => firstn i s :: split_loop fuel' (skipn (i + length sep) s) sep
      end
  end.

(** [s.split(sep)]: ValueError ("empty separator") when [sep] is empty. *)
Definition split (s sep : pystr) : exc (list pystr) :=
  match sep with
  | [] => Raise ValueError
  | _ :: _ => Ok (split_loop (length s) s sep)
  end.

(** [sep.join(parts)] *)
Fixpoint join (sep : pystr) (parts : list pystr) : pystr :=
  match parts with
  | [] => []
  | [p] => p
  | p :: parts' => p ++ sep ++ join sep parts'
  end.

Fixpoint replace_loop (fuel : nat) (s old new : pystr) : pystr :=
  match fuel with
  | O => s
  | S fuel' =>
      match find s old with
      | None => s
      | Some i =>
          firstn i s ++ new
            ++ replace_loop fuel' (skipn (i + length old) s) old new
      end
  end.

(** [s.replace(old, new)]; an empty [old] matches between all characters. *)
Definition replace (s old new : pystr) : pystr :=
  match old with
  | [] => new ++ flat_map (fun c => c :: new) s
  | _ :: _ => replace_loop (length s) s old new
  end.

(** Whitespace as [str.strip()] sees it ([_PyUnicode_IsWhitespace]). *)
Definition is_space (c : N) : bool :=
  ((9 <=? c) && (c <=? 13)) || ((28 <=? c) && (c <=? 32))
  || (c =? 133) || (c =? 160) || (c =? 5760)
  || ((8192 <=? c) && (c <=? 8202))
  || (c =? 8232) || (c =? 8233) || (c =? 8239) || (c =? 8287) || (c =? 12288).

Fixpoint lstrip (s : pystr) : pystr :=
  match s with
  | [] => []
  | c :: s' => if is_space c then lstrip s' else s
  end.

Definition rstrip (s : pystr) : pystr := rev (lstrip (rev s)).

(** [s.strip()] *)
Definition strip (s : pystr) : pystr := rstrip (lstrip s).

(** *** The ASCII range *)

Definition is_ascii (c : N) : bool := c <? 128.
Definition is_upper (c : N) : bool := (65 <=? c) && (c <=? 90).
Definition is_lower (c : N) : bool := (97 <=? c) && (c <=? 122).
Definition is_digit (c : N) : bool := (48 <=? c) && (c <=? 57).
Definition is_alpha (c : N) : bool := is_upper c || is_lower c.

(** The characters of a canonical form: lowercase ASCII letters, digits. *)
Definition is_key (c : N) : bool := is_lower c || is_digit c.

Definition ascii_lower (c : N) : N := if is_upper c then c + 32 else c.
Definition ascii_upper (c : N) : N := if is_lower c then c - 32 else c.

(** [do_title] of CPython on ASCII characters: a character after a cased
    character is lowercased, any other is titlecased (uppercased). *)
Fixpoint ascii_title (previous_is_cased : bool) (s : pystr) : pystr :=
  match s with
  | [] => []
  | c :: s' =>
      (if previous_is_cased then ascii_lower c else ascii_upper c)
        :: ascii_title (is_alpha c) s'
  end.

(** *** Tables outside the repository

    The case mappings of the Unicode database on strings that are not pure
    ASCII, and the transliteration table of [unidecode] for code points
    from 128 on. *)
Class UnicodeData : Type := {
  unicode_lower : pystr -> pystr;
  unicode_title : pystr -> pystr;
  unidecode_table : N -> pystr
}.

Section Unicode.
Context {U : UnicodeData}.

(** [s.lower()]: CPython takes the ASCII path when the string is ASCII. *)
Definition lower (s : pystr) : pystr :=
  if forallb is_ascii s then map ascii_lower s else unicode_lower s.

(** [s.title()] *)
Definition title (s : pystr) : pystr :=
  if forallb is_ascii s then ascii_title false s else unicode_title s.

(** [unidecode.unidecode(s)]: ASCII characters are kept, every other
    character is replaced by its table entry. *)
Definition unidecode (s : pystr) : pystr :=
  flat_map (fun c => if is_ascii c then [c] else unidecode_table c) s.

End Unicode.

End PyStr.

Import PyStr.

(** ** utils.py *)

Module Utils.

Section Defs.
Context {U : UnicodeData}.

Local Open Scope exc_scope.
Local Open Scope string_scope.

(** [get_version_substitute(version_str)] *)
Definition get_version_substitute (version_str : pystr) : exc pystr :=
  let version_str := lower version_str in
  (* substitute edit and edition with version *)
  let version_str :=
    if contains (py "edition") version_str || contains (py "edit") version_str
    then
      let version_str := replace version_str (py " edition") (py " version") in
      replace version_str (py " edit ") (py " version")
    else version_str in
  version_str <-
    (if startswith version_str (py "the ")
     then parts <- split version_str (py "the ") ;; index parts 1
     else Ok version_str) ;;
  let version_str :=
    if contains (py "radio mix") version_str then py "radio version"
    else if contains (py "video mix") version_str then py "video version"
    else if contains (py "spanglish") version_str
            || contains (py "spanish") version_str
         then py "spanish version"
    else if endswith version_str (py "remaster") then py "remaster"
    else version_str in
  Ok (strip version_str).

Definition splitters : list pystr :=
  [py " ("; py " ["; py " - "; py " ("; py " ["; py "-"].

Definition end_splitters : list pystr := [py ")"; py "]"].

Definition ignore_strs : list pystr :=
  [py "feat."; py "featuring"; py "ft."; py "with "; py " & "; py "explicit"].

Definition version_strs : list pystr :=
  [py "version"; py "live"; py "edit"; py "remix"; py "mix"; py "acoustic";
   py " instrumental"; py "karaoke"; py "remaster"; py "versie"; py "radio";
   py "unplugged"; py "disco"].

(** The body of [for title_part in title_parts]; the loop state is
    [(title, version)]. *)
Definition title_part_body (splitter : pystr) (st : pystr * pystr)
           (title_part : pystr) : exc (pystr * pystr) :=
  (* look for the end splitter *)
  title_part <-
    for_each end_splitters
      (fun title_part end_splitter =>
         if contains end_splitter title_part
         then parts <- split title_part end_splitter ;; index parts 0
         else Ok title_part)
      title_part ;;
  let '(title, version) := st in
  title <-
    for_each ignore_strs
      (fun title ignore_str =>
         if contains ignore_str title_part
         then parts <- split title (splitter ++ title_part) ;; index parts 0
         else Ok title)
      title ;;
  for_each version_strs
    (fun '(title, version) version_str =>
       if contains version_str title_part
       then
         let version := title_part in
         parts <- split title (splitter ++ version) ;;
         title <- index parts 0 ;;
         Ok (title, version)
       else Ok (title, version))
    (title, version).

(** The body of [for splitter in ...]. *)
Definition splitter_body (st : pystr * pystr) (splitter : pystr)
  : exc (pystr * pystr) :=
  if contains splitter (fst st)
  then
    title_parts <- split (fst st) splitter ;;
    for_each title_parts (title_part_body splitter) st
  else Ok st.

(** [parse_title_and_version(track_title, track_version=None)] *)
Definition parse_title_and_version (track_title : pystr)
           (track_version : option pystr) : exc (pystr * pystr) :=
  let title := lower track_title in
  let version := [] in
  '(title, version) <- for_each splitters splitter_body (title, version) ;;
  let title := PyStr.title (strip title) in
  (* if not version and track_version *)
  let version :=
    match version, track_version with
    | [], Some (c :: v) => c :: v
    | _, _ => version
    end in
  version <- get_version_substitute version ;;
  Ok (title, PyStr.title version).

End Defs.

End Utils.

(** ** helpers/compare.py *)

Module Compare.

(** Modelled from the spec: the records of [music_assistant.models.media_types]
    (not part of the sources at hand), with the fields the comparison reads:
    strings for names and identifiers, optional strings for [upc] and [isrc],
    an optional integer year, an optional album list with the single [album]
    as fall-back, and a duration in seconds that may be fractional. *)
Record Artist : Type := {
  artist_name : pystr
}.

(** Modelled from the spec: an album, [upc] absent or a string, [year]
    absent or an integer. *)
Record Album : Type := {
  album_provider : pystr;
  album_item_id : pystr;
  album_upc : option pystr;
  album_name : pystr;
  album_version : pystr;
  album_artist : Artist;
  album_year : option Z
}.

(** Modelled from the spec: a track; [albums] may be absent or empty, in
    which case the single [album] stands for it. *)
Record Track : Type := {
  track_provider : pystr;
  track_item_id : pystr;
  track_isrc : option pystr;
  track_name : pystr;
  track_version : pystr;
  track_artists : list Artist;
  track_albums : option (list Album);
  track_album : Album;
  track_duration : Q
}.

(** [==] on optional strings and on optional years. *)
Definition opt_str_eqb (a b : option pystr) : bool :=
  match a, b with
  | Some x, Some y => eqb x y
  | None, None => true
  | _, _ => false
  end.

Definition opt_year_eqb (a b : option Z) : bool :=
  match a, b with
  | Some x, Some y => (x =? y)%Z
  | None, None => true
  | _, _ => false
  end.

Section Defs.
Context {U : UnicodeData}.

(** [get_compare_string(input_str)]; the substitution of
    [[^a-zA-Z0-9]] by the empty string keeps the ASCII letters and digits. *)
Definition get_compare_string (input_str : pystr) : pystr :=
  let unaccented_string := unidecode input_str in
  lower (filter (fun c => is_alpha c || is_digit c) unaccented_string).

(** [compare_strings(str1, str2, strict=False)] *)
Definition compare_strings (str1 str2 : pystr) (strict : bool) : bool :=
  let matched := eqb (lower str1) (lower str2) in
  if negb matched && negb strict
  then eqb (get_compare_string str1) (get_compare_string str2)
  else matched.

(** [compare_artists(left_artists, right_artists)] *)
Definition compare_artists (left_artists right_artists : list Artist) : bool :=
  existsb
    (fun left_artist =>
       existsb
         (fun right_artist =>
            compare_strings (artist_name left_artist)
                            (artist_name right_artist) false)
         right_artists)
    left_artists.

(** [compare_album(left_album, right_album)] *)
Definition compare_album (left_album right_album : Album) : bool :=
  if eqb (album_provider left_album) (album_provider right_album)
     && eqb (album_item_id left_album) (album_item_id right_album)
  then true
  else if truthy (album_upc left_album)
          && opt_str_eqb (album_upc left_album) (album_upc right_album)
  then true (* UPC is always 100% accurate match *)
  else if negb (compare_strings (album_name left_album)
                                (album_name right_album) false)
  then false
  else if negb (compare_strings (album_version left_album)
                                (album_version right_album) false)
  then false
  else if negb (compare_strings (artist_name (album_artist left_album))
                                (artist_name (album_artist right_album)) false)
  then false
  else if negb (opt_year_eqb (album_year left_album) (album_year right_album))
  then false
  else true.

(** [compare_albums(left_albums, right_albums)] *)
Definition compare_albums (left_albums right_albums : list Album) : bool :=
  existsb
    (fun left_album =>
       existsb (fun right_album => compare_album left_album right_album)
               right_albums)
    left_albums.

(** [track.albums or [track.album]] *)
Definition albums_of (t : Track) : list Album :=
  match track_albums t with
  | Some (a :: l) => a :: l
  | _ => [track_album t]
  end.

(** [abs(left_track.duration - right_track.duration) <= 5] *)
Definition near_duration (left_track right_track : Track) : bool :=
  Qle_bool (Qabs (track_duration left_track - track_duration right_track)) 5.

(** [compare_track(left_track, right_track)] *)
Definition compare_track (left_track right_track : Track) : bool :=
  if eqb (track_provider left_track) (track_provider right_track)
     && eqb (track_item_id left_track) (track_item_id right_track)
  then true
  else if truthy (track_isrc left_track)
          && opt_str_eqb (track_isrc left_track) (track_isrc right_track)
  then true (* ISRC is always 100% accurate match *)
  else if negb (compare_strings (track_name left_track)
                                (track_name right_track) false)
  then false
  else if negb (compare_strings (track_version left_track)
                                (track_version right_track) false)
  then false
  else if negb (compare_artists (track_artists left_track)
                                (track_artists right_track))
  then false
  else
    let left_albums := albums_of left_track in
    let right_albums := albums_of right_track in
    if negb (compare_albums left_albums right_albums
             || near_duration left_track right_track)
    then false
    else true.

End Defs.

End Compare.

(** ** utils.py: the other string helpers and the callback marker *)

Module UtilsMisc.

(** *** Tables outside the repository

    [str.isalnum] on code points from 128 on (the Unicode database). *)
Class AlnumData : Type := {
  unicode_isalnum : N -> bool
}.





Local Open Scope string_scope.



Section Defs.
Context {U : UnicodeData} {A : AlnumData}.

Local Open Scope exc_scope.

(** [c.isalnum()] for a single character [c]. *)
Definition isalnum (c : N) : bool :=
  if is_ascii c then is_alpha c || is_digit c else unicode_isalnum c.

Definition keepcharacters : list pystr := [py " "; py "."; py "_"].

(** [c.isalnum() or c in keepcharacters] *)
Definition keep (c : N) : bool :=
  isalnum c || existsb (eqb [c]) keepcharacters.

(** [filename_from_string(string)] *)
Definition filename_from_string (string : pystr) : pystr :=
  rstrip (filter keep string).

Definition sort_name_items : list pystr :=
  [py "The "; py "De "; py "de "; py "Les "].

(** [get_sort_name(name)]; [parts[1:]] is [skipn 1 parts]. *)
Definition get_sort_name (name : pystr) : exc pystr :=
  let sort_name := name in
  for_each sort_name_items
    (fun sort_name item =>
       if startswith name item
       then parts <- split name item ;; Ok (join [] (skipn 1 parts))
       else Ok sort_name)
    sort_name.

(** The copies of [get_compare_string] and [compare_strings] that
    [utils.py] keeps. *)
Definition get_compare_string (input_str : pystr) : pystr :=
  let unaccented_string := unidecode input_str in
  lower (filter (fun c => is_alpha c || is_digit c) unaccented_string).

Definition compare_strings (str1 str2 : pystr) (strict : bool) : bool :=
  let matched := eqb (lower str1) (lower str2) in
  if negb matched && negb strict
  then eqb (get_compare_string str1) (get_compare_string str2)
  else matched.

End Defs.

(** [str.isalnum] on Latin-1: the letters, the ordinal indicators and the
    micro sign, the superscript digits and the vulgar fractions. *)
Definition latin1_alnum : AlnumData := {|
  unicode_isalnum := fun c =>
    ((192 <=? c) && (c <=? 255) && negb (c =? 215) && negb (c =? 247))
    || (c =? 170) || (c =? 181) || (c =? 186)
    || (c =? 178) || (c =? 179) || (c =? 185)
    || ((188 <=? c) && (c <=? 190))
|}.

End UtilsMisc.

(** ** A fragment of the tables

    The Latin-1 part of the case tables and a few entries of the
    transliteration table, enough to run the functions on accented
    Western European names. *)

Module Latin1.

Definition is_upper_l1 (c : N) : bool :=
  is_upper c || ((192 <=? c) && (c <=? 222) && negb (c =? 215)).

Definition is_lower_l1 (c : N) : bool :=
  is_lower c || ((223 <=? c) && (c <=? 255) && negb (c =? 247)).

Definition lower_char (c : N) : N := if is_upper_l1 c then c + 32 else c.

(** ß and ÿ have no uppercase form inside Latin-1 and are left alone. *)
Definition upper_char (c : N) : N :=
  if is_lower_l1 c && negb (c =? 223) && negb (c =? 255) then c - 32 else c.

Fixpoint title_from (previous_is_cased : bool) (s : pystr) : pystr :=
  match s with
  | [] => []
  | c :: s' =>
      (if previous_is_cased then lower_char c else upper_char c)
        :: title_from (is_upper_l1 c || is_lower_l1 c) s'
  end.

Definition translit (c : N) : pystr :=
  if (224 <=? c) && (c <=? 229) then [97]        (* à..å -> a *)
  else if (232 <=? c) && (c <=? 235) then [101]  (* è..ë -> e *)
  else if (236 <=? c) && (c <=? 239) then [105]  (* ì..ï -> i *)
  else if (242 <=? c) && (c <=? 246) then [111]  (* ò..ö -> o *)
  else if (249 <=? c) && (c <=? 252) then [117]  (* ù..ü -> u *)
  else if c =? 223 then [115; 115]               (* ß -> ss *)
  else if c =? 231 then [99]                     (* ç -> c *)
  else if c =? 241 then [110]                    (* ñ -> n *)
  else [].

Definition tables : UnicodeData := {|
  unicode_lower := map lower_char;
  unicode_title := title_from false;
  unidecode_table := translit
|}.

End Latin1.

(** ** Sample records *)

Module Samples.
Import Compare.

Local Open Scope string_scope.

Definition abba : Artist := {| artist_name := py "ABBA" |}.
Definition queen : Artist := {| artist_name := py "Queen" |}.

Definition arrival : Album := {|
  album_provider := py "spotify";
  album_item_id := py "a1";
  album_upc := Some (py "0602537784608");
  album_name := py "Arrival";
  album_version := [];
  album_artist := abba;
  album_year := Some 1976%Z
|}.

(** The same release in another catalogue, under another name and year. *)
Definition arrival_deluxe : Album := {|
  album_provider := py "qobuz";
  album_item_id := py "77";
  album_upc := Some (py "0602537784608");
  album_name := py "Arrival (Deluxe)";
  album_version := py "deluxe";
  album_artist := queen;
  album_year := Some 2006%Z
|}.

Definition gold : Album := {|
  album_provider := py "qobuz";
  album_item_id := py "78";
  album_upc := None;
  album_name := py "Gold";
  album_version := [];
  album_artist := abba;
  album_year := Some 1992%Z
|}.

Definition dancing_queen (provider item_id : String.string)
           (isrc : option pystr) (name : String.string) (album : Album)
           (duration : Q) : Track := {|
  track_provider := py provider;
  track_item_id := py item_id;
  track_isrc := isrc;
  track_name := py name;
  track_version := [];
  track_artists := [abba];
  track_albums := None;
  track_album := album;
  track_duration := duration
|}.

Definition isrc_dq : pystr := py "SEAYD7601020".

Definition dq_spotify : Track :=
  dancing_queen "spotify" "t1" (Some isrc_dq) "Dancing Queen" arrival 230.
Definition dq_qobuz_remaster : Track :=
  dancing_queen "qobuz" "901" (Some isrc_dq) "Dancing Queen (Remaster)" gold
                300.

Definition dq_plain : Track :=
  dancing_queen "spotify" "t1" None "Dancing Queen" arrival 230.
Definition dq_plus_5 : Track :=
  dancing_queen "qobuz" "901" None "dancing queen" gold 235.
Definition dq_plus_6 : Track :=
  dancing_queen "qobuz" "901" None "dancing queen" gold 236.

Definition voulez_vous : Album := {|
  album_provider := py "tidal";
  album_item_id := py "5";
  album_upc := None;
  album_name := py "Voulez-Vous";
  album_version := [];
  album_artist := abba;
  album_year := Some 1979%Z
|}.

Definition dq_plus_10 : Track :=
  dancing_queen "tidal" "44" None "Dancing Queen" voulez_vous 240.

Definition cafe_accent : pystr := py "Caf" ++ [233].
Definition cafe_accent_lower : pystr := py "caf" ++ [233].

End Samples.

(** * Properties *)

(** ** The string primitives *)

Module PyStrFacts.

Lemma eqb_eq (a b : pystr) : eqb a b = true <-> a = b.
Proof.
  revert b; induction a as [|x a IH]; intros [|y b]; simpl;
    try (split; [discriminate | intros H; discriminate H]);
    try tauto.
  rewrite andb_true_iff, N.eqb_eq, IH.
  split; [intros [-> ->]; reflexivity | intros H; inversion H; auto].
Qed.

Lemma eqb_refl (a : pystr) : eqb a a = true.
Proof. apply eqb_eq; reflexivity. Qed.

Lemma eqb_neq (a b : pystr) : eqb a b = false <-> a <> b.
Proof.
  rewrite <- eqb_eq. destruct (eqb a b); split; congruence.
Qed.

Lemma eqb_sym (a b : pystr) : eqb a b = eqb b a.
Proof.
  destruct (eqb a b) eqn:E.
  - apply eqb_eq in E; subst; symmetry; apply eqb_refl.
  - symmetry; apply eqb_neq; apply eqb_neq in E; congruence.
Qed.

(** [startswith] is the prefix relation. *)
Lemma startswith_iff (s prefix : pystr) :
  startswith s prefix = true <-> exists rest, s = prefix ++ rest.
Proof.
  revert s; induction prefix as [|p prefix IH]; intros s; simpl.
  - split; [exists s; reflexivity | reflexivity].
  - destruct s as [|c s].
    + split; [discriminate | intros [rest H]; discriminate H].
    + rewrite andb_true_iff, N.eqb_eq, IH. split.
      * intros [-> [rest ->]]; exists rest; reflexivity.
      * intros [rest H]; inversion H; subst; eauto.
Qed.

Lemma startswith_skipn (s prefix : pystr) :
  startswith s prefix = true -> s = prefix ++ skipn (length prefix) s.
Proof.
  intros H; apply startswith_iff in H as [rest ->].
  rewrite skipn_app, skipn_all, Nat.sub_diag; reflexivity.
Qed.

(** [find] returns a position where [sub] occurs, inside the string. *)
Lemma find_Some (s sub : pystr) (i : nat) :
  find s sub = Some i ->
  startswith (skipn i s) sub = true /\ (i + length sub <= length s)%nat.
Proof.
  revert i; induction s as [|c s IH]; intros i; simpl.
  - destruct sub; simpl; [|discriminate].
    intros H; inversion H; subst; simpl; auto.
  - destruct (startswith (c :: s) sub) eqn:E.
    + intros H; inversion H; subst; simpl. split; [exact E|].
      apply startswith_iff in E as [rest E].
      apply (f_equal (@length N)) in E. rewrite length_app in E.
      simpl in E; lia.
    + destruct (find s sub) as [j|] eqn:F; simpl; [|discriminate].
      intros H; inversion H; subst; simpl.
      destruct (IH j eq_refl) as [H1 H2]; split; [exact H1 | lia].
Qed.

(** No occurrence starts before the position [find] returns. *)
Lemma find_first (s sub : pystr) (i j : nat) :
  find s sub = Some i -> (j < i)%nat -> startswith (skipn j s) sub = false.
Proof.
  revert i j; induction s as [|c s IH]; intros i j; simpl.
  - destruct sub; simpl; [|discriminate].
    intros H; inversion H; lia.
  - destruct (startswith (c :: s) sub) eqn:E.
    + intros H; inversion H; lia.
    + destruct (find s sub) as [k|] eqn:F; simpl; [|discriminate].
      intros H Hj; inversion H; subst.
      destruct j as [|j]; simpl; [exact E|].
      apply (IH k); [reflexivity | lia].
Qed.

Lemma find_None (s sub : pystr) (j : nat) :
  find s sub = None -> startswith (skipn j s) sub = false.
Proof.
  revert j; induction s as [|c s IH]; intros j; simpl.
  - destruct sub; simpl; [discriminate|].
    intros _; destruct j; reflexivity.
  - destruct (startswith (c :: s) sub) eqn:E; [discriminate|].
    destruct (find s sub) eqn:F; simpl; [discriminate|].
    intros _; destruct j as [|j]; simpl; [exact E | apply IH; reflexivity].
Qed.

Lemma find_startswith (s sub : pystr) :
  startswith s sub = true -> find s sub = Some 0%nat.
Proof.
  intros H; destruct s; simpl in *; rewrite H; reflexivity.
Qed.

(** [sub in s] holds exactly when [s] can be cut around [sub]. *)
Lemma contains_iff (sub s : pystr) :
  contains sub s = true <-> exists a b, s = a ++ sub ++ b.
Proof.
  unfold contains; split.
  - destruct (find s sub) as [i|] eqn:F; [|discriminate].
    intros _. apply find_Some in F as [F _].
    apply startswith_iff in F as [rest F].
    exists (firstn i s), rest.
    rewrite <- F; symmetry; apply firstn_skipn.
  - intros (a & b & ->).
    destruct (find (a ++ sub ++ b) sub) eqn:F; [reflexivity|].
    apply (find_None _ _ (length a)) in F.
    rewrite skipn_app, skipn_all, Nat.sub_diag in F; simpl in F.
    assert (startswith (sub ++ b) sub = true) by (apply startswith_iff; eauto).
    congruence.
Qed.

(** [split] never returns an empty list. *)
Lemma split_loop_cons (fuel : nat) (s sep : pystr) :
  exists p ps, split_loop fuel s sep = p :: ps.
Proof.
  destruct fuel as [|fuel]; simpl; [eauto|].
  destruct (find s sep); eauto.
Qed.

(** The length of the string is enough fuel: more of it changes nothing. *)
Lemma split_loop_fuel (sep : pystr) (f1 f2 : nat) :
  sep <> [] ->
  forall s, (length s <= f1)%nat -> (length s <= f2)%nat ->
            split_loop f1 s sep = split_loop f2 s sep.
Proof.
  intros Hsep; revert f2; induction f1 as [|f1 IH]; intros f2 s H1 H2.
  - destruct s; [|simpl in H1; lia].
    destruct f2; simpl; [reflexivity|].
    destruct sep; [congruence | reflexivity].
  - destruct f2 as [|f2].
    + destruct s; [|simpl in H2; lia].
      simpl. destruct sep; [congruence | reflexivity].
    + simpl. destruct (find s sep) as [i|] eqn:F; [|reflexivity].
      apply find_Some in F as [_ F].
      assert (0 < length sep)%nat by (destruct sep; simpl; [congruence | lia]).
      f_equal; apply IH; rewrite length_skipn; lia.
Qed.

(** Joining the pieces with the separator gives the string back. *)
Lemma join_split_loop (fuel : nat) (s sep : pystr) :
  join sep (split_loop fuel s sep) = s.
Proof.
  revert s; induction fuel as [|fuel IH]; intros s; simpl; [reflexivity|].
  destruct (find s sep) as [i|] eqn:F; [|reflexivity].
  apply find_Some in F as [F _].
  destruct (split_loop_cons fuel (skipn (i + length sep) s) sep)
    as (p & ps & E).
  specialize (IH (skipn (i + length sep) s)).
  rewrite E in *. simpl in *. rewrite IH.
  rewrite Nat.add_comm, <- skipn_skipn.
  rewrite <- (startswith_skipn _ _ F).
  apply firstn_skipn.
Qed.

Lemma join_split (s sep : pystr) (parts : list pystr) :
  split s sep = Ok parts -> join sep parts = s.
Proof.
  unfold split; destruct sep; [discriminate|].
  intros H; inversion H; apply join_split_loop.
Qed.

(** [s.replace(old, new)] is [new.join(s.split(old))] for a non-empty
    [old], so the fuel of [replace_loop] is enough when that of
    [split_loop] is. *)
Lemma replace_loop_join (fuel : nat) (s old new : pystr) :
  replace_loop fuel s old new = join new (split_loop fuel s old).
Proof.
  revert s; induction fuel as [|fuel IH]; intros s; simpl; [reflexivity|].
  destruct (find s old) as [i|]; [|reflexivity].
  rewrite IH.
  destruct (split_loop_cons fuel (skipn (i + length old) s) old)
    as (p & ps & ->).
  reflexivity.
Qed.

Lemma replace_join_split (s old new : pystr) (parts : list pystr) :
  split s old = Ok parts -> replace s old new = join new parts.
Proof.
  unfold split, replace; destruct old; [discriminate|].
  intros H; inversion H; apply replace_loop_join.
Qed.

(** [s.split(sep)[0]] is defined whenever the separator is not empty. *)
Lemma split_index_0 (s sep : pystr) :
  sep <> [] ->
  exists p, bind (split s sep) (fun parts => index parts 0) = Ok p.
Proof.
  intros Hsep; unfold split; destruct sep as [|c sep]; [congruence|].
  destruct (split_loop_cons (length s) s (c :: sep)) as (p & ps & ->).
  exists p; reflexivity.
Qed.

(** [s.split(sep)[1]] is defined when [s] starts with the separator: the
    pieces are the empty string, then the text up to the next occurrence
    of the separator (or the end). *)
Lemma split_index_1 (s sep : pystr) :
  sep <> [] -> startswith s sep = true ->
  exists p ps, split s sep = Ok ([] :: p :: ps) /\
               bind (split s sep) (fun parts => index parts 1) = Ok p.
Proof.
  intros Hsep Hs; unfold split; destruct sep as [|c sep]; [congruence|].
  destruct s as [|d s]; [discriminate|].
  cbn [length split_loop]. rewrite (find_startswith _ _ Hs).
  match goal with
  | |- context [split_loop ?f ?t ?u] =>
      destruct (split_loop_cons f t u) as (p & ps & ->)
  end.
  exists p, ps; split; reflexivity.
Qed.

Lemma for_each_total {A S : Type} (items : list A) (body : S -> A -> exc S) :
  (forall st x, In x items -> exists st', body st x = Ok st') ->
  forall st, exists st', for_each items body st = Ok st'.
Proof.
  induction items as [|x items IH]; intros H st; simpl; [eauto|].
  destruct (H st x (or_introl eq_refl)) as [st1 ->]; simpl.
  apply IH; intros; apply H; right; assumption.
Qed.

End PyStrFacts.

(** ** utils.py: title and version parsing *)

Module UtilsFacts.
Import PyStrFacts Utils.

Local Open Scope string_scope.

Section Facts.
Context {U : UnicodeData}.

Lemma py_cons_nonempty (l : list pystr) (x : pystr) :
  forallb (fun s => negb (eqb s [])) l = true -> In x l -> x <> [].
Proof.
  intros H Hin. rewrite forallb_forall in H. specialize (H x Hin).
  intros ->; discriminate H.
Qed.

Lemma app_nonempty (a b : pystr) : a <> [] -> a ++ b <> [].
Proof. destruct a; [congruence | discriminate]. Qed.

Lemma get_version_substitute_total (version_str : pystr) :
  exists r, get_version_substitute version_str = Ok r.
Proof.
  unfold get_version_substitute.
  match goal with
  | |- context [startswith ?v (py "the ")] => generalize v
  end.
  intros v. destruct (startswith v (py "the ")) eqn:E.
  - destruct (split_index_1 v (py "the ")) as (p & ps & _ & ->);
      [cbv; discriminate | exact E |].
    simpl; eauto.
  - simpl; eauto.
Qed.

Lemma title_part_body_total (splitter : pystr) :
  splitter <> [] ->
  forall st title_part,
  exists st', title_part_body splitter st title_part = Ok st'.
Proof.
  intros Hs [title version] title_part. unfold title_part_body.
  match goal with
  | |- context [for_each end_splitters ?b ?s] =>
      destruct (for_each_total end_splitters b) with (st := s) as [tp ->]
  end.
  { intros st x Hin. destruct (contains x st); [|eauto].
    apply split_index_0.
    apply (py_cons_nonempty end_splitters); [reflexivity | exact Hin]. }
  cbn [bind].
  match goal with
  | |- context [for_each ignore_strs ?b ?s] =>
      destruct (for_each_total ignore_strs b) with (st := s) as [t ->]
  end.
  { intros st x _. destruct (contains x tp); [|eauto].
    apply split_index_0, app_nonempty, Hs. }
  cbn [bind].
  apply for_each_total.
  intros [t0 v0] x _. destruct (contains x tp); [|eauto].
  destruct (split_index_0 t0 (splitter ++ tp)) as [p Hp];
    [apply app_nonempty, Hs|].
  unfold bind in *. destruct (split t0 (splitter ++ tp)); [|discriminate].
  rewrite Hp; eauto.
Qed.

Lemma splitter_body_total (splitter : pystr) :
  splitter <> [] ->
  forall st, exists st', splitter_body st splitter = Ok st'.
Proof.
  intros Hs st. unfold splitter_body.
  destruct (contains splitter (fst st)); [|eauto].
  unfold split. destruct splitter as [|c splitter]; [congruence|].
  cbn [bind]. apply for_each_total.
  intros st0 x _. apply title_part_body_total; discriminate.
Qed.

(** C1: on the raw title "Hello World (Radio Edit)" with no fallback
    version, [parse_title_and_version] returns the title "Hello World" and
    the version "Radio Edit".  The version is not turned into
    "Radio Version": the part "radio edit" contains "edit", but
    [get_version_substitute] replaces " edit " only when a space follows
    it, and here the string ends after "edit". *)
Theorem parse_title_radio_edit :
  parse_title_and_version (py "Hello World (Radio Edit)") None
  = Ok (py "Hello World", py "Radio Edit").
Proof. vm_compute. reflexivity. Qed.

(** C2 (amended): on the raw title "Song Title feat. Someone (Remix)" with
    no fallback version, [parse_title_and_version] returns the version
    "Remix" and the title "Song Title Feat. Someone": the "feat." clause is
    not introduced by a split marker, so the truncation at marker+part
    leaves the title as it is. *)
Theorem parse_title_feat_before_marker :
  parse_title_and_version (py "Song Title feat. Someone (Remix)") None
  = Ok (py "Song Title Feat. Someone", py "Remix").
Proof. vm_compute. reflexivity. Qed.

(** C3: [get_version_substitute] on "the best of the best", which starts
    with "the " and whose remainder holds a further "the ", returns
    "best of": [split("the ")[1]] is the text between the first two
    occurrences of "the ", so the remainder "best of the best" is cut at
    the second occurrence instead of being kept whole. *)
Theorem version_substitute_the_twice :
  get_version_substitute (py "the best of the best") = Ok (py "best of").
Proof. vm_compute. reflexivity. Qed.

(** C10: [parse_title_and_version] and [get_version_substitute] are total:
    for every title, with or without a fallback version, a pair of strings
    is returned and no [split] or list-index step raises; element [1] of
    the split on "the " is only taken when the string starts with "the ". *)
Theorem parse_title_and_version_total :
  (forall version_str, exists r, get_version_substitute version_str = Ok r)
  /\ (forall track_title track_version,
        exists title version,
          parse_title_and_version track_title track_version
          = Ok (title, version)).
Proof.
  split; [exact get_version_substitute_total|].
  intros track_title track_version. unfold parse_title_and_version.
  match goal with
  | |- context [for_each splitters ?b ?s] =>
      destruct (for_each_total splitters b) with (st := s) as [[t v] ->]
  end.
  { intros st x Hin. apply splitter_body_total.
    apply (py_cons_nonempty splitters); [reflexivity | exact Hin]. }
  cbn [bind].
  match goal with
  | |- context [get_version_substitute ?x] =>
      destruct (get_version_substitute_total x) as [r ->]
  end.
  cbn [bind]; eauto.
Qed.

(** X1: the empty title gives the empty title and the empty version. *)
Theorem parse_title_empty :
  parse_title_and_version [] None = Ok ([], []).
Proof. vm_compute. reflexivity. Qed.


(** X3: the fixed vocabulary of [get_version_substitute] on sample inputs:
    " edition" becomes " version", a leading "the " is dropped, and the
    radio mix, video mix and remaster forms are normalised. *)
Theorem version_substitute_vocabulary :
  get_version_substitute (py "Deluxe Edition") = Ok (py "deluxe version")
  /\ get_version_substitute (py "Extended Radio Mix") = Ok (py "radio version")
  /\ get_version_substitute (py "The Video Mix") = Ok (py "video version")
  /\ get_version_substitute (py "Spanglish Version")
     = Ok (py "spanish version")
  /\ get_version_substitute (py "2011 Remaster") = Ok (py "remaster")
  /\ get_version_substitute (py " Live ") = Ok (py "live").
Proof. vm_compute. repeat split; reflexivity. Qed.

End Facts.

(** C2 (as stated, refuted): the title returned for
    "Song Title feat. Someone (Remix)" still contains the "feat." clause. *)
Lemma parse_title_feat_clause_remains :
  exists title,
    parse_title_and_version (U := Latin1.tables)
      (py "Song Title feat. Someone (Remix)") None
    = Ok (title, py "Remix")
    /\ contains (py "feat. someone") (lower (U := Latin1.tables) title) = true.
Proof.
  exists (py "Song Title Feat. Someone"). vm_compute. split; reflexivity.
Qed.

End UtilsFacts.

(** ** helpers/compare.py: matching *)

Module CompareFacts.
Import PyStrFacts Compare.

Local Open Scope string_scope.

(** Boolean range tests on code points, turned into arithmetic. *)
Ltac ranges :=
  unfold is_ascii, is_alpha, is_upper, is_lower, is_digit in *;
  repeat match goal with
         | H : _ && _ = true |- _ => apply andb_true_iff in H; destruct H
         | H : _ || _ = true |- _ => apply orb_true_iff in H; destruct H
         | H : (_ <=? _) = true |- _ => apply N.leb_le in H
         | H : (_ <? _) = true |- _ => apply N.ltb_lt in H
         | H : _ && _ = false |- _ => apply andb_false_iff in H; destruct H
         | H : _ || _ = false |- _ => apply orb_false_iff in H; destruct H
         | H : (_ <=? _) = false |- _ => apply N.leb_gt in H
         | H : (_ <? _) = false |- _ => apply N.ltb_ge in H
         end.

Lemma opt_str_eqb_eq (a b : option pystr) : opt_str_eqb a b = true <-> a = b.
Proof.
  destruct a as [x|], b as [y|]; simpl;
    try (split; [discriminate | intros H; discriminate H]); [|tauto].
  rewrite eqb_eq. split; [intros ->; reflexivity | intros H; inversion H; auto].
Qed.

Lemma truthy_eq_sym (a b : option pystr) :
  truthy a && opt_str_eqb a b = truthy b && opt_str_eqb b a.
Proof.
  destruct (truthy a && opt_str_eqb a b) eqn:E; symmetry.
  - apply andb_true_iff in E as [E1 E2]. apply opt_str_eqb_eq in E2; subst b.
    rewrite E1. apply opt_str_eqb_eq; reflexivity.
  - destruct (truthy b && opt_str_eqb b a) eqn:F; [|reflexivity].
    apply andb_true_iff in F as [F1 F2]. apply opt_str_eqb_eq in F2; subst a.
    rewrite F1 in E. simpl in E. rewrite <- E. symmetry.
    apply opt_str_eqb_eq; reflexivity.
Qed.

Lemma opt_year_eqb_sym (a b : option Z) : opt_year_eqb a b = opt_year_eqb b a.
Proof. destruct a, b; simpl; auto using Z.eqb_sym. Qed.

(** A double [for] loop that returns on the first hit of a symmetric test
    does not depend on which list is the outer one. *)
Lemma existsb_pairs_sym {A : Type} (f : A -> A -> bool) :
  (forall x y, f x y = f y x) ->
  forall l r, existsb (fun x => existsb (fun y => f x y) r) l
              = existsb (fun y => existsb (fun x => f y x) l) r.
Proof.
  intros Hf l r. apply eq_true_iff_eq. rewrite !existsb_exists. split.
  - intros (x & Hx & H). apply existsb_exists in H as (y & Hy & H).
    exists y; split; [exact Hy|]. apply existsb_exists.
    exists x; split; [exact Hx|]. rewrite Hf; exact H.
  - intros (y & Hy & H). apply existsb_exists in H as (x & Hx & H).
    exists x; split; [exact Hx|]. apply existsb_exists.
    exists y; split; [exact Hy|]. rewrite Hf; exact H.
Qed.

Section Facts.
Context {U : UnicodeData}.

Lemma compare_strings_sym (a b : pystr) (strict : bool) :
  compare_strings a b strict = compare_strings b a strict.
Proof.
  unfold compare_strings.
  rewrite (eqb_sym (lower a)), (eqb_sym (get_compare_string a)); reflexivity.
Qed.

Lemma compare_artists_sym (l r : list Artist) :
  compare_artists l r = compare_artists r l.
Proof.
  unfold compare_artists.
  apply (existsb_pairs_sym
           (fun x y => compare_strings (artist_name x) (artist_name y) false)).
  intros; apply compare_strings_sym.
Qed.

Lemma compare_album_sym (l r : Album) : compare_album l r = compare_album r l.
Proof.
  unfold compare_album.
  rewrite (eqb_sym (album_provider r)), (eqb_sym (album_item_id r)),
    (truthy_eq_sym (album_upc r)), (compare_strings_sym (album_name r)),
    (compare_strings_sym (album_version r)),
    (compare_strings_sym (artist_name (album_artist r))),
    (opt_year_eqb_sym (album_year r)).
  reflexivity.
Qed.

Lemma compare_albums_sym (l r : list Album) :
  compare_albums l r = compare_albums r l.
Proof.
  unfold compare_albums.
  apply (existsb_pairs_sym compare_album), compare_album_sym.
Qed.

Lemma near_duration_sym (l r : Track) : near_duration l r = near_duration r l.
Proof. unfold near_duration. rewrite Qabs_Qminus. reflexivity. Qed.

Lemma compare_track_sym (l r : Track) : compare_track l r = compare_track r l.
Proof.
  unfold compare_track.
  rewrite (eqb_sym (track_provider r)), (eqb_sym (track_item_id r)),
    (truthy_eq_sym (track_isrc r)), (compare_strings_sym (track_name r)),
    (compare_strings_sym (track_version r)),
    (compare_artists_sym (track_artists r)),
    (compare_albums_sym (albums_of r)), (near_duration_sym r).
  reflexivity.
Qed.

(** C7: the comparison entry points are symmetric: [compare_strings] for
    either strict flag, [compare_album] and [compare_track] give the same
    answer when their two arguments are exchanged. *)
Theorem comparisons_symmetric :
  (forall a b strict, compare_strings a b strict = compare_strings b a strict)
  /\ (forall x y, compare_album x y = compare_album y x)
  /\ (forall x y, compare_track x y = compare_track y x).
Proof.
  split; [exact compare_strings_sym|].
  split; [exact compare_album_sym | exact compare_track_sym].
Qed.

(** C4: two albums whose [upc] fields are both present, non-empty and
    equal match, whatever their names, versions, artists and years; two
    tracks whose [isrc] fields are both present, non-empty and equal
    match, whatever their names, versions, artists, albums and durations. *)
Theorem identifier_override (left_album right_album : Album)
        (left_track right_track : Track) (upc isrc : pystr) :
  upc <> [] ->
  album_upc left_album = Some upc -> album_upc right_album = Some upc ->
  isrc <> [] ->
  track_isrc left_track = Some isrc -> track_isrc right_track = Some isrc ->
  compare_album left_album right_album = true
  /\ compare_track left_track right_track = true.
Proof.
  intros Hu Hl Hr Hi Hlt Hrt.
  unfold compare_album, compare_track.
  rewrite Hl, Hr, Hlt, Hrt.
  destruct upc as [|c upc]; [congruence|].
  destruct isrc as [|d isrc]; [congruence|].
  cbn [truthy opt_str_eqb]. rewrite !eqb_refl. cbn [andb].
  split; match goal with |- (if ?b then _ else _) = _ => destruct b end;
    reflexivity.
Qed.

(** C5: for two tracks that neither share provider and item id nor a
    non-empty isrc, whose names, versions and artists match and none of
    whose albums match: a duration difference of exactly 5 seconds gives a
    match, a difference of exactly 6 seconds gives none. *)
Theorem duration_fallback (left_track right_track : Track) :
  ~ (track_provider left_track = track_provider right_track
     /\ track_item_id left_track = track_item_id right_track) ->
  ~ (truthy (track_isrc left_track) = true
     /\ track_isrc left_track = track_isrc right_track) ->
  compare_strings (track_name left_track) (track_name right_track) false
  = true ->
  compare_strings (track_version left_track) (track_version right_track) false
  = true ->
  compare_artists (track_artists left_track) (track_artists right_track)
  = true ->
  compare_albums (albums_of left_track) (albums_of right_track) = false ->
  (Qabs (track_duration left_track - track_duration right_track) == 5
   -> compare_track left_track right_track = true)%Q
  /\ (Qabs (track_duration left_track - track_duration right_track) == 6
      -> compare_track left_track right_track = false)%Q.
Proof.
  intros Hid Hisrc Hname Hversion Hartists Halbums.
  unfold compare_track, near_duration.
  rewrite Hname, Hversion, Hartists, Halbums. cbn [negb orb].
  assert (E1 : eqb (track_provider left_track) (track_provider right_track)
               && eqb (track_item_id left_track) (track_item_id right_track)
               = false).
  { apply not_true_is_false; intros H. apply andb_true_iff in H as [H1 H2].
    apply eqb_eq in H1, H2. tauto. }
  assert (E2 : truthy (track_isrc left_track)
               && opt_str_eqb (track_isrc left_track) (track_isrc right_track)
               = false).
  { apply not_true_is_false; intros H. apply andb_true_iff in H as [H1 H2].
    apply opt_str_eqb_eq in H2. tauto. }
  rewrite E1, E2. split; intros Hd.
  - assert (Qle_bool
              (Qabs (track_duration left_track - track_duration right_track)) 5
            = true) as ->; [|reflexivity].
    apply Qle_bool_iff. rewrite Hd. apply Qle_refl.
  - assert (Qle_bool
              (Qabs (track_duration left_track - track_duration right_track)) 5
            = false) as ->; [|reflexivity].
    apply not_true_is_false; intros H. apply Qle_bool_iff in H.
    rewrite Hd in H. revert H. unfold Qle; simpl; lia.
Qed.

(** C6: with [strict = true], [compare_strings] is true exactly when the
    two strings are equal after lowercasing, the canonical form is not
    consulted; given that "Café" lowercases to "café" and that the
    transliteration of "é" is "e", [compare_strings("Café", "Cafe")] is
    false in strict mode and true otherwise. *)
Theorem compare_strings_strict :
  unicode_lower Samples.cafe_accent = Samples.cafe_accent_lower ->
  unidecode_table 233 = py "e" ->
  (forall a b, compare_strings a b true = true <-> lower a = lower b)
  /\ compare_strings Samples.cafe_accent (py "Cafe") true = false
  /\ compare_strings Samples.cafe_accent (py "Cafe") false = true.
Proof.
  intros Hlow Htab.
  assert (Hl : lower Samples.cafe_accent = Samples.cafe_accent_lower)
    by (unfold lower; cbn; exact Hlow).
  assert (Hc : get_compare_string Samples.cafe_accent = py "cafe")
    by (unfold get_compare_string, unidecode; cbn [Samples.cafe_accent];
        cbn; rewrite Htab; reflexivity).
  split; [|split].
  - intros a b. unfold compare_strings.
    rewrite andb_false_r. apply eqb_eq.
  - unfold compare_strings. rewrite Hl. reflexivity.
  - unfold compare_strings. rewrite Hl, Hc. reflexivity.
Qed.

Lemma alnum_is_ascii (c : N) :
  is_alpha c || is_digit c = true -> is_ascii c = true.
Proof. intros H. ranges; apply N.ltb_lt; lia. Qed.

Lemma ascii_lower_is_key (c : N) :
  is_alpha c || is_digit c = true -> is_key (ascii_lower c) = true.
Proof.
  intros H. unfold is_key, ascii_lower.
  destruct (is_upper c) eqn:E; ranges; unfold is_lower, is_digit;
    rewrite orb_true_iff, !andb_true_iff, !N.leb_le; lia.
Qed.

Lemma key_facts (c : N) :
  is_key c = true ->
  is_ascii c = true /\ is_alpha c || is_digit c = true /\ ascii_lower c = c.
Proof.
  intros H. unfold is_key in H.
  assert (Hu : is_upper c = false).
  { unfold is_upper. apply andb_false_iff. ranges;
      rewrite !N.leb_gt; lia. }
  unfold ascii_lower, is_alpha. rewrite Hu. cbn [orb].
  split; [|split; [exact H | reflexivity]].
  ranges; apply N.ltb_lt; lia.
Qed.

Lemma lower_of_ascii (s : pystr) :
  forallb is_ascii s = true -> lower s = map ascii_lower s.
Proof. intros H; unfold lower; rewrite H; reflexivity. Qed.

Lemma filter_alnum_ascii (s : pystr) :
  forallb is_ascii (filter (fun c => is_alpha c || is_digit c) s) = true.
Proof.
  apply forallb_forall. intros c Hc. apply filter_In in Hc as [_ Hc].
  apply alnum_is_ascii, Hc.
Qed.

(** The canonical form is the ASCII lowercasing of the letters and digits
    of the transliteration. *)
Lemma get_compare_string_eq (s : pystr) :
  get_compare_string s
  = map ascii_lower (filter (fun c => is_alpha c || is_digit c) (unidecode s)).
Proof.
  unfold get_compare_string. apply lower_of_ascii, filter_alnum_ascii.
Qed.

Lemma get_compare_string_keys (s : pystr) :
  forallb is_key (get_compare_string s) = true.
Proof.
  rewrite get_compare_string_eq. apply forallb_forall. intros c Hc.
  apply in_map_iff in Hc as (d & <- & Hd). apply filter_In in Hd as [_ Hd].
  apply ascii_lower_is_key, Hd.
Qed.

Lemma get_compare_string_fixed (r : pystr) :
  forallb is_key r = true -> get_compare_string r = r.
Proof.
  intros H. rewrite get_compare_string_eq.
  induction r as [|c r IH]; [reflexivity|].
  cbn [forallb] in H. apply andb_true_iff in H as [Hc Hr].
  destruct (key_facts c Hc) as (Ha & Hn & Hl).
  unfold unidecode in *. cbn [flat_map]. rewrite Ha. cbn [app filter].
  rewrite Hn. cbn [map]. rewrite Hl, (IH Hr). reflexivity.
Qed.

(** C8: canonicalization is idempotent:
    [get_compare_string(get_compare_string(s)) = get_compare_string(s)]
    for every string [s]. *)
Theorem get_compare_string_idempotent (s : pystr) :
  get_compare_string (get_compare_string s) = get_compare_string s.
Proof. apply get_compare_string_fixed, get_compare_string_keys. Qed.

Lemma lower_nonempty (s : pystr) :
  (forall t, t <> [] -> unicode_lower t <> []) -> s <> [] -> lower s <> [].
Proof.
  intros Hne Hs. unfold lower. destruct (forallb is_ascii s).
  - destruct s; [congruence | discriminate].
  - apply Hne, Hs.
Qed.

(** C9: provided lowercasing never empties a non-empty string, a non-empty
    [s] matches the empty string in non-strict mode exactly when its
    canonical form is empty; two empty strings match under either strict
    flag. *)
Theorem compare_strings_empty :
  (forall t, t <> [] -> unicode_lower t <> []) ->
  (forall s, s <> [] ->
             (compare_strings s [] false = true <-> get_compare_string s = []))
  /\ (forall strict, compare_strings [] [] strict = true).
Proof.
  intros Hne. split.
  - intros s Hs. unfold compare_strings.
    assert (E : eqb (lower s) (lower []) = false).
    { apply eqb_neq. apply (lower_nonempty s Hne Hs). }
    rewrite E. cbn [negb andb].
    change (get_compare_string []) with (@nil N). apply eqb_eq.
  - intros strict. unfold compare_strings. reflexivity.
Qed.

(** X4: a comparison with an empty artist list never matches. *)
Theorem compare_artists_empty (artists : list Artist) :
  compare_artists [] artists = false /\ compare_artists artists [] = false.
Proof.
  split; [reflexivity|].
  unfold compare_artists. induction artists; simpl; auto.
Qed.

(** X5: an album matches itself and a track matches itself, by the provider
    and item id rule. *)
Theorem compare_same_item (album : Album) (track : Track) :
  compare_album album album = true /\ compare_track track track = true.
Proof.
  unfold compare_album, compare_track. rewrite !eqb_refl. split; reflexivity.
Qed.

(** X6: the canonical form holds lowercase ASCII letters and digits only. *)
Theorem get_compare_string_alphabet (s : pystr) :
  Forall (fun c => (97 <= c <= 122) \/ (48 <= c <= 57)) (get_compare_string s).
Proof.
  apply Forall_forall. intros c Hc.
  pose proof (get_compare_string_keys s) as H.
  rewrite forallb_forall in H. specialize (H c Hc).
  unfold is_key in H. ranges; lia.
Qed.

(** X7: the case-insensitive comparison comes first and the canonical form
    second: "ABC" and "abc" match even in strict mode, "A-B" and "AB" only
    match through the canonical form. *)
Theorem compare_strings_two_paths :
  compare_strings (py "ABC") (py "abc") true = true
  /\ compare_strings (py "A-B") (py "AB") true = false
  /\ compare_strings (py "A-B") (py "AB") false = true.
Proof. vm_compute. repeat split; reflexivity. Qed.

End Facts.

Lemma identifier_override_witness :
  compare_album (U := Latin1.tables) Samples.arrival Samples.arrival_deluxe
  = true
  /\ compare_track (U := Latin1.tables)
        Samples.dq_spotify Samples.dq_qobuz_remaster = true.
Proof.
  apply (identifier_override (U := Latin1.tables)
           Samples.arrival Samples.arrival_deluxe
           Samples.dq_spotify Samples.dq_qobuz_remaster
           (py "0602537784608") Samples.isrc_dq);
    try reflexivity; vm_compute; discriminate.
Defined.

Lemma duration_fallback_witness :
  compare_track (U := Latin1.tables) Samples.dq_plain Samples.dq_plus_5 = true
  /\ compare_track (U := Latin1.tables) Samples.dq_plain Samples.dq_plus_6
     = false.
Proof.
  split.
  - apply (duration_fallback (U := Latin1.tables)
             Samples.dq_plain Samples.dq_plus_5);
      try reflexivity; vm_compute; intros [H _]; discriminate H.
  - apply (duration_fallback (U := Latin1.tables)
             Samples.dq_plain Samples.dq_plus_6);
      try reflexivity; vm_compute; intros [H _]; discriminate H.
Defined.

Lemma compare_strings_strict_witness :
  compare_strings (U := Latin1.tables) Samples.cafe_accent (py "Cafe") true
  = false
  /\ compare_strings (U := Latin1.tables) Samples.cafe_accent (py "Cafe") false
     = true.
Proof.
  apply (compare_strings_strict (U := Latin1.tables)); reflexivity.
Defined.

Lemma compare_strings_empty_witness :
  (compare_strings (U := Latin1.tables) (py "?!") [] false = true
   <-> get_compare_string (U := Latin1.tables) (py "?!") = [])
  /\ compare_strings (U := Latin1.tables) [] [] true = true.
Proof.
  assert (Hne : forall t, t <> [] ->
                unicode_lower (UnicodeData := Latin1.tables) t <> []).
  { intros t Ht. destruct t; [congruence | discriminate]. }
  split.
  - apply (compare_strings_empty (U := Latin1.tables) Hne).
    vm_compute; discriminate.
  - apply (compare_strings_empty (U := Latin1.tables) Hne).
Defined.

End CompareFacts.

(** ** Stripping whitespace *)

Module StripFacts.

Lemma lstrip_idem (s : pystr) : lstrip (lstrip s) = lstrip s.
Proof.
  induction s as [|c s IH]; simpl; [reflexivity|].
  destruct (is_space c) eqn:E; [exact IH|].
  simpl; rewrite E; reflexivity.
Qed.

Lemma rstrip_idem (s : pystr) : rstrip (rstrip s) = rstrip s.
Proof. unfold rstrip. rewrite rev_involutive, lstrip_idem. reflexivity. Qed.

(** What [lstrip] returns is empty or starts with a character that is not
    whitespace. *)
Lemma lstrip_head (s : pystr) :
  lstrip s = [] \/ exists c r, lstrip s = c :: r /\ is_space c = false.
Proof.
  induction s as [|c s IH]; simpl; [left; reflexivity|].
  destruct (is_space c) eqn:E; [exact IH|].
  right; exists c, s; split; [reflexivity | exact E].
Qed.

Lemma lstrip_snoc (s : pystr) (c : N) :
  is_space c = false -> lstrip (s ++ [c]) = lstrip s ++ [c].
Proof.
  intros Hc. induction s as [|d s IH]; simpl.
  - rewrite Hc; reflexivity.
  - destruct (is_space d); [exact IH | reflexivity].
Qed.

Lemma lstrip_rstrip (s : pystr) :
  lstrip (rstrip (lstrip s)) = rstrip (lstrip s).
Proof.
  destruct (lstrip_head s) as [-> | (c & r & -> & Hc)]; [reflexivity|].
  unfold rstrip. simpl rev. rewrite (lstrip_snoc _ _ Hc), rev_app_distr.
  simpl. rewrite Hc. reflexivity.
Qed.

Lemma strip_idem (s : pystr) : strip (strip s) = strip s.
Proof.
  unfold strip. rewrite lstrip_rstrip. apply rstrip_idem.
Qed.

Lemma lstrip_Forall (P : N -> Prop) (s : pystr) :
  Forall P s -> Forall P (lstrip s).
Proof.
  induction 1 as [|c s Hc Hs IH]; simpl; [constructor|].
  destruct (is_space c); [exact IH | constructor; assumption].
Qed.

Lemma rstrip_Forall (P : N -> Prop) (s : pystr) :
  Forall P s -> Forall P (rstrip s).
Proof.
  intros H. unfold rstrip. apply Forall_rev, lstrip_Forall, Forall_rev, H.
Qed.

End StripFacts.

(** ** utils.py: file names, sort names, callback marker *)

Module UtilsMiscFacts.
Import PyStrFacts StripFacts UtilsMisc.

Local Open Scope string_scope.

Lemma filter_fixed {T : Type} (f : T -> bool) (l : list T) :
  Forall (fun x => f x = true) l -> filter f l = l.
Proof.
  induction 1 as [|x l Hx Hl IH]; simpl; [reflexivity|].
  rewrite Hx, IH; reflexivity.
Qed.

Lemma startswith_app (item rest : pystr) :
  startswith (item ++ rest) item = true.
Proof. apply startswith_iff; exists rest; reflexivity. Qed.

Lemma replace_loop_absent (fuel : nat) (s old new : pystr) :
  find s old = None -> replace_loop fuel s old new = s.
Proof. intros H; destruct fuel; simpl; [|rewrite H]; reflexivity. Qed.

(** Removing a leading [item] that does not occur again leaves the rest. *)
Lemma replace_leading (item rest : pystr) :
  item <> [] -> contains item rest = false ->
  replace (item ++ rest) item [] = rest.
Proof.
  intros Hi Hc. unfold replace. destruct item as [|c item]; [congruence|].
  remember (c :: item) as it eqn:E.
  assert (Hlen : length (it ++ rest) = S (length item + length rest))
    by (subst it; rewrite length_app; reflexivity).
  rewrite Hlen. cbn [replace_loop].
  rewrite (find_startswith _ _ (startswith_app it rest)).
  cbn [firstn Nat.add app].
  rewrite skipn_app, skipn_all, Nat.sub_diag. cbn [skipn app].
  apply replace_loop_absent.
  unfold contains in Hc. destruct (find rest it); [discriminate|].
  reflexivity.
Qed.

Section Facts.
Context {U : UnicodeData} {A : AlnumData}.

Lemma filename_keep (s : pystr) :
  Forall (fun c => keep c = true) (filename_from_string s).
Proof.
  unfold filename_from_string. apply rstrip_Forall, Forall_forall.
  intros c Hc. apply filter_In in Hc. tauto.
Qed.

Lemma keep_cases (c : N) :
  keep c = true -> isalnum c = true \/ c = 32 \/ c = 46 \/ c = 95.
Proof.
  intros H. apply orb_true_iff in H as [H|H]; [left; exact H|].
  right.
  change (existsb (eqb [c]) keepcharacters)
    with (((c =? 32) && true)
          || (((c =? 46) && true) || (((c =? 95) && true) || false))) in H.
  rewrite !andb_true_r, orb_false_r, !orb_true_iff, !N.eqb_eq in H.
  tauto.
Qed.

Lemma filename_excludes (s : pystr) (c : N) :
  keep c = false -> ~ In c (filename_from_string s).
Proof.
  intros Hc Hin. pose proof (filename_keep s) as H.
  rewrite Forall_forall in H. specialize (H c Hin). simpl in *. congruence.
Qed.

(** X8: every character of a file name made by [filename_from_string] is
    alphanumeric, a space, a dot or an underscore; in particular the name
    holds no path separator ("/", "\"), no colon and no NUL character. *)
Theorem filename_characters (string : pystr) :
  Forall (fun c => isalnum c = true \/ c = 32 \/ c = 46 \/ c = 95)
         (filename_from_string string)
  /\ ~ In 47 (filename_from_string string)
  /\ ~ In 92 (filename_from_string string)
  /\ ~ In 58 (filename_from_string string)
  /\ ~ In 0 (filename_from_string string).
Proof.
  split.
  - eapply Forall_impl; [|apply filename_keep]. exact keep_cases.
  - repeat split; apply filename_excludes; reflexivity.
Qed.

(** X9: [filename_from_string] is idempotent: a name it made is returned
    as it is. *)
Theorem filename_idempotent (string : pystr) :
  filename_from_string (filename_from_string string)
  = filename_from_string string.
Proof.
  unfold filename_from_string at 1.
  rewrite (filter_fixed _ _ (filename_keep string)).
  unfold filename_from_string. apply rstrip_idem.
Qed.

(** X10: the strings [filename_from_string] leaves unchanged are exactly
    those made of alphanumeric characters, spaces, dots and underscores
    that do not end in whitespace. *)
Theorem filename_fixed_points (string : pystr) :
  filename_from_string string = string
  <-> forallb keep string = true /\ rstrip string = string.
Proof.
  split.
  - intros H. split.
    + apply forallb_forall. intros c Hc. rewrite <- H in Hc.
      pose proof (filename_keep string) as K. rewrite Forall_forall in K.
      exact (K c Hc).
    + rewrite <- H at 1. unfold filename_from_string.
      rewrite rstrip_idem. exact H.
  - intros [Hk Hr]. unfold filename_from_string.
    rewrite filter_fixed; [exact Hr|].
    apply Forall_forall. rewrite forallb_forall in Hk. exact Hk.
Qed.

(** The body of the loop of [get_sort_name] for an item the name starts
    with: all occurrences of the item are removed. *)
Lemma sort_name_step (name item : pystr) :
  item <> [] -> startswith name item = true ->
  bind (split name item) (fun parts => Ok (join [] (skipn 1 parts)))
  = Ok (replace name item []).
Proof.
  intros Hi Hs.
  destruct (split_index_1 name item Hi Hs) as (p & ps & Hsplit & _).
  rewrite (replace_join_split _ _ [] _ Hsplit), Hsplit. reflexivity.
Qed.

Lemma get_sort_name_item (name item : pystr) :
  In item sort_name_items -> startswith name item = true ->
  get_sort_name name = Ok (replace name item []).
Proof.
  intros Hin Hs.
  assert (Hi : item <> []).
  { destruct Hin as [<-|[<-|[<-|[<-|[]]]]]; discriminate. }
  pose proof (sort_name_step name item Hi Hs) as Hstep.
  pose proof Hs as Hx. apply startswith_iff in Hx as [rest Hx].
  unfold get_sort_name, sort_name_items. cbn [for_each].
  destruct Hin as [<-|[<-|[<-|[<-|[]]]]].
  - rewrite Hs, Hstep. cbn [bind].
    replace (startswith name (py "De ")) with false by (subst; reflexivity).
    replace (startswith name (py "de ")) with false by (subst; reflexivity).
    replace (startswith name (py "Les ")) with false by (subst; reflexivity).
    reflexivity.
  - replace (startswith name (py "The ")) with false by (subst; reflexivity).
    cbn [bind]. rewrite Hs, Hstep. cbn [bind].
    replace (startswith name (py "de ")) with false by (subst; reflexivity).
    replace (startswith name (py "Les ")) with false by (subst; reflexivity).
    reflexivity.
  - replace (startswith name (py "The ")) with false by (subst; reflexivity).
    replace (startswith name (py "De ")) with false by (subst; reflexivity).
    cbn [bind]. rewrite Hs, Hstep. cbn [bind].
    replace (startswith name (py "Les ")) with false by (subst; reflexivity).
    reflexivity.
  - replace (startswith name (py "The ")) with false by (subst; reflexivity).
    replace (startswith name (py "De ")) with false by (subst; reflexivity).
    replace (startswith name (py "de ")) with false by (subst; reflexivity).
    cbn [bind]. rewrite Hs, Hstep. reflexivity.
Qed.

(** X11: a name that starts with none of "The ", "De ", "de ", "Les " is
    its own sort name. *)
Theorem get_sort_name_unchanged (name : pystr) :
  (forall item, In item sort_name_items -> startswith name item = false) ->
  get_sort_name name = Ok name.
Proof.
  intros H. unfold get_sort_name, sort_name_items. cbn [for_each].
  rewrite !H by (unfold sort_name_items; simpl; auto 6).
  reflexivity.
Qed.

(** X12: for a name that starts with one of the four items, the sort name
    is the name with every occurrence of that item removed, not only the
    leading one. *)
Theorem get_sort_name_removes_item (name item : pystr) :
  In item sort_name_items -> startswith name item = true ->
  get_sort_name name = Ok (replace name item []).
Proof. exact (get_sort_name_item name item). Qed.

(** X13: when the item does not occur again in the rest of the name, the
    sort name is the name without its leading item. *)
Theorem get_sort_name_drops_prefix (item rest : pystr) :
  In item sort_name_items -> contains item rest = false ->
  get_sort_name (item ++ rest) = Ok rest.
Proof.
  intros Hin Hc.
  rewrite (get_sort_name_item _ item Hin (startswith_app item rest)).
  rewrite replace_leading; [reflexivity | | exact Hc].
  destruct Hin as [<-|[<-|[<-|[<-|[]]]]]; discriminate.
Qed.

(** X14: the copies of [get_compare_string] and [compare_strings] kept in
    [utils.py] agree with those of [helpers/compare.py] on every input. *)
Theorem utils_compare_strings_agree (str1 str2 : pystr) (strict : bool) :
  get_compare_string str1 = Compare.get_compare_string str1
  /\ compare_strings str1 str2 strict
     = Compare.compare_strings str1 str2 strict.
Proof. split; reflexivity. Qed.

End Facts.

Lemma get_sort_name_unchanged_witness :
  get_sort_name (py "ABBA") = Ok (py "ABBA").
Proof.
  apply (get_sort_name_unchanged (py "ABBA")).
  intros item Hin. destruct Hin as [<-|[<-|[<-|[<-|[]]]]]; reflexivity.
Defined.

Lemma get_sort_name_removes_item_witness :
  get_sort_name (py "The Who and The Band") = Ok (py "Who and Band").
Proof.
  apply (get_sort_name_removes_item (py "The Who and The Band") (py "The "));
    [left; reflexivity | reflexivity].
Defined.

Lemma get_sort_name_drops_prefix_witness :
  get_sort_name (py "Les " ++ py "Rita Mitsouko") = Ok (py "Rita Mitsouko").
Proof.
  apply (get_sort_name_drops_prefix (py "Les ") (py "Rita Mitsouko"));
    [simpl; auto 6 | reflexivity].
Defined.




End UtilsMiscFacts.

(** ** helpers/compare.py: the canonical form and the shape of matching *)

Module CompareMoreFacts.
Import PyStrFacts Compare CompareFacts.

Local Open Scope string_scope.

Section Facts.
Context {U : UnicodeData}.

Lemma unidecode_app (a b : pystr) :
  unidecode (a ++ b) = unidecode a ++ unidecode b.
Proof. unfold unidecode. apply flat_map_app. Qed.

Lemma canonical_app (a b : pystr) :
  get_compare_string (a ++ b) = get_compare_string a ++ get_compare_string b.
Proof.
  rewrite !get_compare_string_eq, unidecode_app, filter_app, map_app.
  reflexivity.
Qed.

Lemma canonical_punctuation (c : N) :
  is_ascii c = true -> is_alpha c || is_digit c = false ->
  get_compare_string [c] = [].
Proof.
  intros Ha Hn. rewrite get_compare_string_eq. unfold unidecode.
  cbn [flat_map]. rewrite Ha. cbn [app filter]. rewrite Hn. reflexivity.
Qed.

Lemma compare_of_canonical (x y : pystr) :
  get_compare_string x = get_compare_string y ->
  compare_strings x y false = true.
Proof.
  intros H. unfold compare_strings.
  destruct (eqb (lower x) (lower y)); cbn [negb andb]; [reflexivity|].
  rewrite H. apply eqb_refl.
Qed.

Lemma unidecode_ascii (a : pystr) :
  forallb is_ascii a = true -> unidecode a = a.
Proof.
  unfold unidecode. induction a as [|c a IH]; [reflexivity|].
  cbn [forallb flat_map]. intros H. apply andb_true_iff in H as [Hc Ha].
  rewrite Hc, (IH Ha). reflexivity.
Qed.

Lemma alnum_ascii_lower (c : N) :
  is_alpha (ascii_lower c) || is_digit (ascii_lower c)
  = is_alpha c || is_digit c.
Proof.
  unfold ascii_lower. destruct (is_upper c) eqn:E; [|reflexivity].
  unfold is_alpha at 2. rewrite E. cbn [orb].
  assert (Hl : is_lower (c + 32) = true).
  { ranges. unfold is_lower. apply andb_true_iff. rewrite !N.leb_le. lia. }
  unfold is_alpha. rewrite Hl, orb_true_r. reflexivity.
Qed.

Lemma filter_alnum_lower (a : pystr) :
  filter (fun c => is_alpha c || is_digit c) (map ascii_lower a)
  = map ascii_lower (filter (fun c => is_alpha c || is_digit c) a).
Proof.
  induction a as [|c a IH]; [reflexivity|].
  cbn [map filter]. rewrite alnum_ascii_lower, IH.
  destruct (is_alpha c || is_digit c); reflexivity.
Qed.

(** On an ASCII string the canonical form is read off the lowercased
    string. *)
Lemma canonical_of_lower (a : pystr) :
  forallb is_ascii a = true ->
  get_compare_string a
  = filter (fun c => is_alpha c || is_digit c) (lower a).
Proof.
  intros Ha.
  rewrite get_compare_string_eq, (unidecode_ascii a Ha), (lower_of_ascii a Ha).
  symmetry. apply filter_alnum_lower.
Qed.

(** X16: the canonical form of a concatenation is the concatenation of
    the canonical forms. *)
Theorem get_compare_string_app (a b : pystr) :
  get_compare_string (a ++ b) = get_compare_string a ++ get_compare_string b.
Proof. exact (canonical_app a b). Qed.

(** X17: an ASCII character that is neither a letter nor a digit (a space,
    a hyphen, a bracket, ...) put anywhere in a string changes neither its
    canonical form nor, in non-strict mode, what it matches: the string
    with and without the character match. *)
Theorem punctuation_ignored (a b : pystr) (c : N) :
  is_ascii c = true -> is_alpha c || is_digit c = false ->
  get_compare_string (a ++ c :: b) = get_compare_string (a ++ b)
  /\ compare_strings (a ++ c :: b) (a ++ b) false = true.
Proof.
  intros Ha Hn.
  assert (E : get_compare_string (a ++ c :: b) = get_compare_string (a ++ b)).
  { change (c :: b) with ([c] ++ b).
    rewrite !canonical_app, (canonical_punctuation c Ha Hn). reflexivity. }
  split; [exact E | apply compare_of_canonical, E].
Qed.

(** X18: on ASCII strings the non-strict comparison is the equality of
    the canonical forms: the case-insensitive test that comes first never
    accepts a pair the canonical forms tell apart. *)
Theorem compare_strings_ascii (a b : pystr) :
  forallb is_ascii a = true -> forallb is_ascii b = true ->
  compare_strings a b false
  = eqb (get_compare_string a) (get_compare_string b).
Proof.
  intros Ha Hb. unfold compare_strings.
  destruct (eqb (lower a) (lower b)) eqn:E; cbn [negb andb]; [|reflexivity].
  apply eqb_eq in E. symmetry. apply eqb_eq.
  rewrite (canonical_of_lower a Ha), (canonical_of_lower b Hb), E.
  reflexivity.
Qed.

(** X19: every string matches itself under either strict flag, and a
    strict match is also a non-strict match. *)
Theorem compare_strings_reflexive (a b : pystr) (strict : bool) :
  compare_strings a a strict = true
  /\ implb (compare_strings a b true) (compare_strings a b false) = true.
Proof.
  unfold compare_strings. rewrite eqb_refl. split; [reflexivity|].
  destruct (eqb (lower a) (lower b)); reflexivity.
Qed.

(** X20: [compare_track] is not transitive: with equal names, versions and
    artists and no matching album, durations of 230, 235 and 240 seconds
    match pairwise along the chain but not from end to end. *)
Theorem compare_track_not_transitive :
  exists x y z,
    compare_track x y = true /\ compare_track y z = true
    /\ compare_track x z = false.
Proof.
  exists Samples.dq_plain, Samples.dq_plus_5, Samples.dq_plus_10.
  vm_compute. repeat split; reflexivity.
Qed.

Lemma existsb_same_elements {T : Type} (f g : T -> bool) (l l' : list T) :
  (forall x, In x l <-> In x l') -> (forall x, f x = g x) ->
  existsb f l = existsb g l'.
Proof.
  intros Hl Hf. apply eq_true_iff_eq. rewrite !existsb_exists.
  split; intros (x & Hx & H); exists x; split;
    try (apply Hl; exact Hx); congruence.
Qed.

(** X23: [compare_artists] and [compare_albums] depend only on which
    artists or albums each list holds: their order and repetitions do not
    change the answer. *)
Theorem compare_lists_order_independent
        (left_artists left_artists' right_artists right_artists' : list Artist)
        (left_albums left_albums' right_albums right_albums' : list Album) :
  (forall x, In x left_artists <-> In x left_artists') ->
  (forall x, In x right_artists <-> In x right_artists') ->
  (forall x, In x left_albums <-> In x left_albums') ->
  (forall x, In x right_albums <-> In x right_albums') ->
  compare_artists left_artists right_artists
  = compare_artists left_artists' right_artists'
  /\ compare_albums left_albums right_albums
     = compare_albums left_albums' right_albums'.
Proof.
  intros H1 H2 H3 H4. unfold compare_artists, compare_albums. split.
  - apply existsb_same_elements; [exact H1|].
    intros x. apply existsb_same_elements; [exact H2 | reflexivity].
  - apply existsb_same_elements; [exact H3|].
    intros x. apply existsb_same_elements; [exact H4 | reflexivity].
Qed.

End Facts.

Lemma punctuation_ignored_witness :
  get_compare_string (U := Latin1.tables) (py "AC" ++ 47 :: py "DC")
  = get_compare_string (U := Latin1.tables) (py "AC" ++ py "DC")
  /\ compare_strings (U := Latin1.tables)
       (py "AC" ++ 47 :: py "DC") (py "AC" ++ py "DC") false = true.
Proof.
  apply (punctuation_ignored (U := Latin1.tables) (py "AC") (py "DC") 47);
    reflexivity.
Defined.

Lemma compare_strings_ascii_witness :
  compare_strings (U := Latin1.tables) (py "AC/DC") (py "ac dc") false
  = eqb (get_compare_string (U := Latin1.tables) (py "AC/DC"))
        (get_compare_string (U := Latin1.tables) (py "ac dc")).
Proof.
  apply (compare_strings_ascii (U := Latin1.tables) (py "AC/DC") (py "ac dc"));
    reflexivity.
Defined.

Lemma compare_lists_order_independent_witness :
  compare_artists (U := Latin1.tables)
    [Samples.abba; Samples.queen] [Samples.queen]
  = compare_artists (U := Latin1.tables)
      [Samples.queen; Samples.abba; Samples.abba] [Samples.queen; Samples.queen]
  /\ compare_albums (U := Latin1.tables)
       [Samples.arrival; Samples.gold] [Samples.gold]
     = compare_albums (U := Latin1.tables)
         [Samples.gold; Samples.arrival] [Samples.gold].
Proof.
  apply (compare_lists_order_independent (U := Latin1.tables));
    intros x; simpl; tauto.
Defined.

End CompareMoreFacts.

(** ** utils.py: titles without markers, stripped versions *)

Module UtilsMoreFacts.
Import PyStrFacts StripFacts Utils UtilsFacts.

Local Open Scope string_scope.

Lemma contains_false_app (sub a b s : pystr) :
  contains sub s = false -> contains (a ++ sub ++ b) s = false.
Proof.
  intros H. apply not_true_is_false. intros C. apply contains_iff in C.
  destruct C as (x & y & ->).
  assert (T : contains sub (x ++ (a ++ sub ++ b) ++ y) = true).
  { apply contains_iff. exists (x ++ a), (b ++ y).
    rewrite <- !app_assoc. reflexivity. }
  congruence.
Qed.

Section Facts.
Context {U : UnicodeData}.

(** X21: a title whose lowercased form holds no "-", no " (" and no " ["
    is only lowercased, stripped and title-cased; its version is the
    fallback version (the empty string when there is none) put through
    [get_version_substitute] and title-cased. *)
Theorem parse_title_without_markers
        (track_title : pystr) (track_version : option pystr) :
  contains (py "-") (lower track_title) = false ->
  contains (py " (") (lower track_title) = false ->
  contains (py " [") (lower track_title) = false ->
  parse_title_and_version track_title track_version
  = bind (get_version_substitute
            (match track_version with Some v => v | None => [] end))
         (fun version =>
            Ok (title (strip (lower track_title)), title version)).
Proof.
  intros Hdash Hpar Hbra.
  assert (Hsp : contains (py " - ") (lower track_title) = false)
    by exact (contains_false_app (py "-") (py " ") (py " ") _ Hdash).
  unfold parse_title_and_version, splitters. cbn [for_each].
  unfold splitter_body.
  do 6 (cbn [fst bind]; rewrite ?Hpar, ?Hbra, ?Hsp, ?Hdash).
  cbn [bind]. destruct track_version as [[|c v]|]; reflexivity.
Qed.

(** X22: what [get_version_substitute] returns carries no leading or
    trailing whitespace. *)
Theorem version_substitute_stripped (version_str : pystr) :
  exists r, get_version_substitute version_str = Ok r /\ strip r = r.
Proof.
  unfold get_version_substitute.
  match goal with
  | |- context [startswith ?v (py "the ")] => generalize v
  end.
  intros v. destruct (startswith v (py "the ")) eqn:E.
  - destruct (split_index_1 v (py "the ")) as (p & ps & _ & ->);
      [cbv; discriminate | exact E |].
    cbn [bind]. eexists; split; [reflexivity | apply strip_idem].
  - cbn [bind]. eexists; split; [reflexivity | apply strip_idem].
Qed.

End Facts.

Lemma parse_title_without_markers_witness :
  parse_title_and_version (U := Latin1.tables)
    (py "  dancing QUEEN ") (Some (py "Deluxe Edition"))
  = Ok (py "Dancing Queen", py "Deluxe Version").
Proof.
  apply (parse_title_without_markers (U := Latin1.tables)
           (py "  dancing QUEEN ") (Some (py "Deluxe Edition")));
    reflexivity.
Defined.

End UtilsMoreFacts.
